(** * passport-cognito-oauth2: the Strategy constructor and userProfile

    A shallow embedding of [lib/strategy.js].  The file has three layers:

    - [JS]: the fragment of the JavaScript semantics the source relies on
      (property reads, string conversion, [for ... of], property assignment
      on an ordinary object, promise reactions);
    - the [Strategy] constructor, over the constructor of the inherited
      [OAuth2Strategy], which belongs to the package passport-oauth2, and
      over the constructor of the Cognito client, which belongs to the AWS
      SDK;
    - [userProfile], over the [send] method of the Cognito client, which
      belongs to the AWS SDK. *)

From stdpp Require Import gmap strings list fin_maps.

Open Scope string_scope.
Open Scope list_scope.
Set Warnings "-register-all".

(** ** The JavaScript fragment *)

Module JS.

(** Values that configuration objects and deserialised GetUser responses are
    made of.  Numbers, symbols and functions do not occur in them and are
    not modelled.  The fields of an object are its own properties; when a
    name is listed twice the first binding is the property.  A character of
    a [string] stands for one code point. *)
Inductive value : Type :=
  | VUndefined
  | VNull
  | VBool (b : bool)
  | VStr (s : string)
  | VArr (items : list value)
  | VObj (fields : list (string * value)).

(** What a [throw] or a promise rejection carries: an error object. *)
Inductive exn : Type :=
  | TypeError (msg : string)
  | ServiceError (name msg : string).

(** The outcome of evaluating an expression or calling a function. *)
Inductive completion (A : Type) : Type :=
  | Normal (a : A)
  | Throw (e : exn).
Arguments Normal {A} a.
Arguments Throw {A} e.

Definition cbind {A B} (c : completion A) (k : A → completion B) : completion B :=
  match c with
  | Normal a => k a
  | Throw e => Throw e
  end.

Fixpoint assoc (k : string) (fields : list (string * value)) : option value :=
  match fields with
  | [] => None
  | (k', v) :: rest => if decide (k = k') then Some v else assoc k rest
  end.

(** [v.k] for a property name [k] that no built-in prototype defines; the
    source reads only such names ([Username], [UserAttributes], [Name],
    [Value] and the six option names).  Reading a property of [undefined]
    or [null] throws; a primitive or an array has no such property. *)
Definition Get (v : value) (k : string) : completion value :=
  match v with
  | VUndefined => Throw (TypeError ("Cannot read properties of undefined (reading '" +:+ k +:+ "')"))
  | VNull => Throw (TypeError ("Cannot read properties of null (reading '" +:+ k +:+ "')"))
  | VBool _ | VStr _ | VArr _ => Normal VUndefined
  | VObj fields => Normal (default VUndefined (assoc k fields))
  end.

(** [ToString].  An array is joined with commas, an [undefined] or [null]
    element contributing the empty string.  A plain object is converted by
    [Object.prototype.toString], unless an own property [toString] (which
    cannot be a function here) shadows it: then neither [toString] nor
    [valueOf] yields a primitive and the conversion throws. *)
Fixpoint ToString (v : value) : completion string :=
  match v with
  | VUndefined => Normal "undefined"
  | VNull => Normal "null"
  | VBool true => Normal "true"
  | VBool false => Normal "false"
  | VStr s => Normal s
  | VArr items =>
      (fix join (l : list value) : completion string :=
         match l with
         | [] => Normal ""
         | x :: rest =>
             cbind (match x with
                    | VUndefined | VNull => Normal ""
                    | _ => ToString x
                    end)
               (fun s =>
                  match rest with
                  | [] => Normal s
                  | _ :: _ => cbind (join rest) (fun t => Normal (s +:+ "," +:+ t))
                  end)
         end) items
  | VObj fields =>
      match assoc "toString" fields with
      | None => Normal "[object Object]"
      | Some _ => Throw (TypeError "Cannot convert object to primitive value")
      end
  end.

(** The key of a computed member access [o[v]]. *)
Definition ToPropertyKey (v : value) : completion string := ToString v.

(** The one-character strings a string iterator yields. *)
Fixpoint code_points (s : string) : list value :=
  match s with
  | EmptyString => []
  | String c rest => VStr (String c EmptyString) :: code_points rest
  end.

(** The sequence of values [for (const x of v)] binds [x] to.  Arrays and
    strings are iterable; nothing else in [value] is. *)
Definition iterate (v : value) : completion (list value) :=
  match v with
  | VArr items => Normal items
  | VStr s => Normal (code_points s)
  | VUndefined => Throw (TypeError "undefined is not iterable")
  | VNull => Throw (TypeError "null is not iterable")
  | VBool _ => Throw (TypeError "boolean is not iterable")
  | VObj _ => Throw (TypeError "object is not iterable")
  end.

(** Truthiness of a value, as tested by [!v]. *)
Definition truthy (v : value) : bool :=
  match v with
  | VUndefined | VNull | VBool false | VStr "" => false
  | _ => true
  end.

(** *** Ordinary objects built by the program *)

(** What the [[Prototype]] slot of an object holds. *)
Inductive proto : Type :=
  | ObjectPrototype
  | NullPrototype
  | ValuePrototype (v : value).

(** An object created by an object literal: its own data properties and its
    prototype. *)
Record object : Type := Object {
  own : gmap string value;
  prototype : proto
}.

(** Whether an assignment to [o.__proto__] runs the setter that
    [Object.prototype] defines for that name: it does unless a data property
    of that name is found first, on [o] itself or on a prototype that is a
    deserialised object, or the chain ends before [Object.prototype]. *)
Definition reaches_proto_setter (o : object) : bool :=
  match own o !! "__proto__" with
  | Some _ => false
  | None =>
      match prototype o with
      | ObjectPrototype => true
      | NullPrototype => false
      | ValuePrototype (VObj fields) =>
          match assoc "__proto__" fields with
          | Some _ => false
          | None => true
          end
      | ValuePrototype _ => true
      end
  end.

(** [o[k] = v] for an extensible ordinary object [o].  Every property an
    assignment can find on the prototype chain is a writable data property,
    so the assignment defines an own property of [o]; the one accessor is
    [__proto__] of [Object.prototype], whose setter replaces the prototype
    when [v] is an object or [null] and does nothing otherwise. *)
Definition set_property (o : object) (k : string) (v : value) : object :=
  if bool_decide (k = "__proto__") && reaches_proto_setter o then
    match v with
    | VNull => Object (own o) NullPrototype
    | VArr _ | VObj _ => Object (own o) (ValuePrototype v)
    | VUndefined | VBool _ | VStr _ => o
    end
  else Object (<[k := v]> (own o)) (prototype o).

(** The own enumerable property names of an object, as [Object.keys] lists
    them, as a set. *)
Definition keys (o : object) : gset string := dom (own o).

(** *** Promises *)

(** The state a promise ends in. *)
Inductive promise (A : Type) : Type :=
  | Pending
  | Fulfilled (a : A)
  | Rejected (e : exn).
Arguments Pending {A}.
Arguments Fulfilled {A} a.
Arguments Rejected {A} e.

End JS.

Import JS.

(** ** The constructor *)

(** The parameters the constructor destructures from its first argument. *)
Record params : Type := Params {
  clientDomain : value;
  clientID : value;
  clientSecret : value;
  callbackURL : value;
  passReqToCallback : value;
  clientRegion : value
}.

(** The [options] literal the constructor hands to [OAuth2Strategy]. *)
Module OAuth2Options.
Record t : Type := Make {
  authorizationURL : string;
  clientID : value;
  clientSecret : value;
  callbackURL : value;
  passReqToCallback : value;
  tokenURL : string
}.
End OAuth2Options.

(** A client [new CognitoIdentityProviderClient({ region })] returned,
    represented by the configuration it was constructed with. *)
Record CognitoIdentityProviderClient : Type := Client {
  region : value
}.

(** A constructed strategy: the state the inherited constructor set up, and
    the two fields the constructor assigns. *)
Record instance (Base : Type) : Type := Instance {
  oauth2 : Base;
  cognitoClient : CognitoIdentityProviderClient;
  name : string
}.
Arguments Instance {Base} _ _ _.
Arguments oauth2 {Base} _.
Arguments cognitoClient {Base} _.
Arguments name {Base} _.

Notation "'let!' x ':=' c 'in' k" := (cbind c (fun x => k))
  (at level 10, x name, c at level 100, k at level 200).

(** Binding the pattern [{clientDomain, clientID, clientSecret, callbackURL,
    passReqToCallback, clientRegion}] to the first argument. *)
Definition destructure (config : value) : completion params :=
  let! clientDomain := Get config "clientDomain" in
  let! clientID := Get config "clientID" in
  let! clientSecret := Get config "clientSecret" in
  let! callbackURL := Get config "callbackURL" in
  let! passReqToCallback := Get config "passReqToCallback" in
  let! clientRegion := Get config "clientRegion" in
  Normal (Params clientDomain clientID clientSecret callbackURL
            passReqToCallback clientRegion).


(** The template literal [`${v}suffix`]. *)
Definition template (v : value) (suffix : string) : completion string :=
  let! s := ToString v in Normal (s +:+ suffix).

(** [const options = { authorizationURL: ..., ..., tokenURL: ... }]. *)
Definition options_of (p : params) : completion OAuth2Options.t :=
  let! authorizationURL := template (clientDomain p) "/oauth2/authorize" in
  let! tokenURL := template (clientDomain p) "/oauth2/token" in
  Normal (OAuth2Options.Make authorizationURL (clientID p) (clientSecret p)
            (callbackURL p) (passReqToCallback p) tokenURL).

Section Constructor.

(** The inherited constructor is code of passport-oauth2: what it accepts
    and what it stores is a parameter here. *)
Context {Verify Base : Type}.
Variable OAuth2Strategy : OAuth2Options.t → Verify → completion Base.

(** The constructor of the client is code of the AWS SDK: whether
    [new CognitoIdentityProviderClient({ region })] returns or throws, and
    what it throws, is a parameter here. *)
Variable new_client : value → completion unit.

Definition Strategy (config : value) (verify : Verify) : completion (instance Base) :=
  let! p := destructure config in
  let! options := options_of p in
  let! base := OAuth2Strategy options verify in
  let! constructed := new_client (clientRegion p) in
  Normal (Instance base (Client (clientRegion p)) "cognito-oauth2").

End Constructor.

(** The constructor of passport-oauth2, as far as it can refuse the
    arguments the strategy hands it: it requires a verify callback and
    truthy [authorizationURL], [tokenURL] and [clientID] options, in this
    order, and then parses [authorizationURL] with [url.parse] to name its
    session key, which throws on a URL that [url.parse] refuses.  Parsing
    is code of Node.js and a parameter here. *)
Module PassportOAuth2.

Inductive verify : Type :=
  | VerifyMissing
  | VerifyFunction.

Record base : Type := Base {
  _verify : verify;
  _options : OAuth2Options.t
}.

Definition OAuth2Strategy (url_parse : string → completion unit)
    (options : OAuth2Options.t) (v : verify) : completion base :=
  match v with
  | VerifyMissing => Throw (TypeError "OAuth2Strategy requires a verify callback")
  | VerifyFunction =>
      if negb (truthy (VStr (OAuth2Options.authorizationURL options))) then
        Throw (TypeError "OAuth2Strategy requires a authorizationURL option")
      else if negb (truthy (VStr (OAuth2Options.tokenURL options))) then
        Throw (TypeError "OAuth2Strategy requires a tokenURL option")
      else if negb (truthy (OAuth2Options.clientID options)) then
        Throw (TypeError "OAuth2Strategy requires a clientID option")
      else
        let! parsed := url_parse (OAuth2Options.authorizationURL options) in
        Normal (Base v options)
  end.

End PassportOAuth2.

(** ** userProfile *)

Definition loc : Type := positive.

(** One invocation of the completion callback: its two arguments and the
    heap at that moment. *)
Record call : Type := Call {
  call_err : option exn;
  call_profile : option loc;
  call_heap : gmap loc object
}.

(** The completion callback.  It is handed an error or [null] and a profile
    object or [null]; it returns or throws.  (A callback that returns a
    promise which rejects acts on the chain like one that throws.) *)
Definition callback : Type := option exn → option loc → gmap loc object → completion unit.

(** [new GetUserCommand({ AccessToken })]. *)
Record GetUserCommand : Type := Command {
  AccessToken : value
}.

Section UserProfile.

Context {Base : Type}.

(** The state the program runs in: the strategy the method is called on,
    the objects allocated so far, and the invocations of the completion
    callback so far, oldest first. *)
Record state : Type := State {
  this : instance Base;
  heap : gmap loc object;
  calls : list call
}.

(** Computations that read and update the state and may throw. *)
Definition M (A : Type) : Type := state → completion A * state.

Definition ret {A} (a : A) : M A := fun s => (Normal a, s).

Definition bind {A B} (m : M A) (k : A → M B) : M B :=
  fun s =>
    match m s with
    | (Normal a, s') => k a s'
    | (Throw e, s') => (Throw e, s')
    end.

Definition lift {A} (c : completion A) : M A := fun s => (c, s).

(** Allocation of a new object. *)
Definition alloc (o : object) : M loc :=
  fun s =>
    let l := fresh (dom (heap s)) in
    (Normal l, State (this s) (<[l := o]> (heap s)) (calls s)).

(** [l[k] = v]. *)
Definition assign (l : loc) (k : string) (v : value) : M unit :=
  fun s =>
    (Normal tt,
     State (this s) (alter (fun o => set_property o k v) l (heap s)) (calls s)).

(** [done(err, profile)]. *)
Definition invoke (done : callback) (err : option exn) (profile : option loc) : M unit :=
  fun s =>
    (done err profile (heap s),
     State (this s) (heap s) (calls s ++ [Call err profile (heap s)])).

(** [for (const x of items) body]. *)
Fixpoint for_of (items : list value) (body : value → M unit) : M unit :=
  match items with
  | [] => ret tt
  | x :: rest => bind (body x) (fun _ => for_of rest body)
  end.

(** [p.then(onFulfilled)]: the reaction runs when [p] is fulfilled and
    settles the derived promise; a rejection passes through. *)
Definition then_ {A B} (p : promise A) (onFulfilled : A → M B) (s : state)
  : promise B * state :=
  match p with
  | Pending => (Pending, s)
  | Fulfilled a =>
      match onFulfilled a s with
      | (Normal b, s') => (Fulfilled b, s')
      | (Throw e, s') => (Rejected e, s')
      end
  | Rejected e => (Rejected e, s)
  end.

(** [p.catch(onRejected)]: the reaction runs when [p] is rejected; a
    fulfilment passes through. *)
Definition catch_ {A} (p : promise A) (onRejected : exn → M A) (s : state)
  : promise A * state :=
  match p with
  | Pending => (Pending, s)
  | Fulfilled a => (Fulfilled a, s)
  | Rejected e =>
      match onRejected e s with
      | (Normal a, s') => (Fulfilled a, s')
      | (Throw e', s') => (Rejected e', s')
      end
  end.

Notation "'do!' x ':=' m 'in' k" := (bind m (fun x => k))
  (at level 10, x name, m at level 100, k at level 200).
Notation "m ';;!' k" := (bind m (fun _ => k))
  (at level 100, k at level 200, right associativity).

(** The body of the loop: [profile[attribute.Name] = attribute.Value]. *)
Definition loop_body (profile : loc) (attribute : value) : M unit :=
  do! n := lift (Get attribute "Name") in
  do! k := lift (ToPropertyKey n) in
  do! v := lift (Get attribute "Value") in
  assign profile k v.

(** The fulfilment handler up to its [return]: the object literal and the
    loop. *)
Definition build_profile (getUserResponse : value) : M loc :=
  do! username := lift (Get getUserResponse "Username") in
  do! profile := alloc (Object {[ "username" := username ]} ObjectPrototype) in
  do! attributes := lift (Get getUserResponse "UserAttributes") in
  do! items := lift (iterate attributes) in
  for_of items (loop_body profile) ;;!
  ret profile.

(** [(getUserResponse) => { ...; return done(null, profile); }]. *)
Definition on_fulfilled (done : callback) (getUserResponse : value) : M unit :=
  do! profile := build_profile getUserResponse in
  invoke done None (Some profile).

(** [(userGetError) => { return done(userGetError, null); }]. *)
Definition on_rejected (done : callback) (userGetError : exn) : M unit :=
  invoke done (Some userGetError) None.

(** What a computation may change while the profile at [l] is being
    filled: nothing but the object at [l]. *)
Definition fills (l : loc) (s s' : state) : Prop :=
  this s' = this s ∧ calls s' = calls s
  ∧ (∀ l', l' ≠ l → heap s' !! l' = heap s !! l')
  ∧ (is_Some (heap s !! l) → is_Some (heap s' !! l)).

(** The promise [cognitoClient.send(command)] returns, by the state it
    ends in; the client is code of the AWS SDK. *)
Variable send : CognitoIdentityProviderClient → GetUserCommand → promise value.

(** What an invocation amounts to: how the call itself completes, the
    state of the promise at the end of the chain, and the state of the
    program once the reactions have run. *)
Record outcome : Type := Outcome {
  returned : completion unit;
  chain : promise unit;
  final : state
}.

Definition userProfile (userAccessToken : value) (done : callback) (s : state) : outcome :=
  let command := Command userAccessToken in
  let p1 := send (cognitoClient (this s)) command in
  let '(p2, s2) := then_ p1 (on_fulfilled done) s in
  let '(p3, s3) := catch_ p2 (on_rejected done) s2 in
  Outcome (Normal tt) p3 s3.

End UserProfile.

(** ** Inputs used in statements *)

(** An entry [{Name: n, Value: v}] of the attribute list. *)
Definition attribute (n v : string) : value :=
  VObj [("Name", VStr n); ("Value", VStr v)].

(** A response [{Username: u, UserAttributes: [...]}]. *)
Definition response (u : string) (attributes : list (string * string)) : value :=
  VObj [("Username", VStr u);
        ("UserAttributes", VArr ((fun nv => attribute nv.1 nv.2) <$> attributes))].

(** What the loop sees of an entry it can process: the property key its
    [Name] converts to and its [Value]. *)
Definition entry (item : value) (k : string) (v : value) : Prop :=
  ∃ n, Get item "Name" = Normal n ∧ ToPropertyKey n = Normal k
       ∧ Get item "Value" = Normal v.

Definition entries (items : list value) (kvs : list (string * value)) : Prop :=
  Forall2 (fun item kv => entry item kv.1 kv.2) items kvs.

(** The assignments of the loop, in order, on an object. *)
Definition set_all (o : object) (kvs : list (string * value)) : object :=
  foldl (fun o kv => set_property o kv.1 kv.2) o kvs.

(** The assignments of the loop, in order, on a map. *)
Definition insert_all (m : gmap string value) (kvs : list (string * value))
  : gmap string value :=
  foldl (fun m kv => <[kv.1 := kv.2]> m) m kvs.

(** The value of the last entry named [k]. *)
Fixpoint last_value (k : string) (kvs : list (string * value)) : option value :=
  match kvs with
  | [] => None
  | (k', v) :: rest =>
      match last_value k rest with
      | Some w => Some w
      | None => if decide (k = k') then Some v else None
      end
  end.

Definition nullish (v : value) : bool :=
  match v with
  | VUndefined | VNull => true
  | _ => false
  end.

(** Responses on which the handler cannot complete: the response is not an
    object, its [UserAttributes] is missing or is neither an array nor a
    string, or the array holds a [null] or [undefined] entry. *)
Definition malformed_attributes (getUserResponse : value) : bool :=
  match getUserResponse with
  | VObj fields =>
      match assoc "UserAttributes" fields with
      | Some (VArr items) => existsb nullish items
      | Some (VStr _) => false
      | _ => true
      end
  | _ => true
  end.

(** The configuration object of the example in the constructor's
    documentation. *)
Definition documented_options : value :=
  VObj [("callbackURL", VStr "https://myapp.com/auth/cognito/callback");
        ("clientDomain", VStr "https://myapp.auth.us-west-2.amazoncognito.com");
        ("clientID", VStr "123-456-789");
        ("clientSecret", VStr "shhh-its-a-secret");
        ("region", VStr "us-west-2")].

(** Collaborators that refuse nothing, as [url.parse] and the constructor
    of the client do on the URLs and the regions of the examples. *)
Definition parsing : string → completion unit := fun _ => Normal tt.

Definition accepting : value → completion unit := fun _ => Normal tt.

(** A strategy to call [userProfile] on, and the state before any call. *)
Definition a_strategy : instance PassportOAuth2.base :=
  Instance
    (PassportOAuth2.Base PassportOAuth2.VerifyFunction
       (OAuth2Options.Make
          "https://myapp.auth.us-west-2.amazoncognito.com/oauth2/authorize"
          (VStr "123-456-789") (VStr "shhh-its-a-secret")
          (VStr "https://myapp.com/auth/cognito/callback") VUndefined
          "https://myapp.auth.us-west-2.amazoncognito.com/oauth2/token"))
    (Client (VStr "us-west-2")) "cognito-oauth2".

Definition initial : state := State a_strategy ∅ [].

(** The GetUser call of a client, by the promise it returns. *)
Definition fulfils (getUserResponse : value)
  : CognitoIdentityProviderClient → GetUserCommand → promise value :=
  fun _ _ => Fulfilled getUserResponse.

Definition rejects (e : exn)
  : CognitoIdentityProviderClient → GetUserCommand → promise value :=
  fun _ _ => Rejected e.

(** A completion callback that returns. *)
Definition returning : callback := fun _ _ _ => Normal tt.

(** A completion callback that throws when it is handed a profile. *)
Definition throwing_on_profile : callback :=
  fun _ profile _ =>
    match profile with
    | Some _ => Throw (TypeError "verify failed")
    | None => Normal tt
    end.

(** The names the constructor reads from its first argument. *)
Definition option_names : list string :=
  ["clientDomain"; "clientID"; "clientSecret"; "callbackURL";
   "passReqToCallback"; "clientRegion"].

(** What the loop stores of (name, value) pairs of strings: every pair but
    those named [__proto__], in order. *)
Definition stored (attributes : list (string * string)) : list (string * value) :=
  (fun nv => (nv.1, VStr nv.2)) <$> filter (fun nv => nv.1 ≠ "__proto__") attributes.

Definition is_normal {A} (c : completion A) : bool :=
  match c with
  | Normal _ => true
  | Throw _ => false
  end.

(** An entry the loop body completes on: its [Name] can be read and
    converted to a property key. *)
Definition processable_entry (item : value) : bool :=
  is_normal (let! n := Get item "Name" in ToPropertyKey n).

(** A response the fulfilment handler processes to the end: its
    [UserAttributes] can be read and iterated, and the loop body completes
    on every entry. *)
Definition processable (getUserResponse : value) : bool :=
  match (let! attributes := Get getUserResponse "UserAttributes" in
         iterate attributes) with
  | Normal items => forallb processable_entry items
  | Throw _ => false
  end.

(** A completion callback that throws whatever it is handed. *)
Definition throwing : callback :=
  fun _ _ _ => Throw (TypeError "callback failed").

(** ** The loop and the object it fills *)

Section Lemmas.

Implicit Types (o : object) (m : gmap string value)
  (kvs : list (string * value)).

Lemma set_property_plain o k v :
  k ≠ "__proto__" →
  set_property o k v = Object (<[k := v]> (own o)) (prototype o).
Proof.
  intros Hk. unfold set_property.
  by rewrite bool_decide_eq_false_2.
Qed.

Lemma set_all_plain o kvs :
  "__proto__" ∉ kvs.*1 →
  set_all o kvs = Object (insert_all (own o) kvs) (prototype o).
Proof.
  revert o. induction kvs as [|[k v] kvs IH]; intros o Hk.
  - by destruct o.
  - rewrite fmap_cons, not_elem_of_cons in Hk. destruct Hk as [Hk Hks].
    simpl in Hk. unfold set_all, insert_all. simpl.
    rewrite set_property_plain by done.
    by rewrite (IH _ Hks).
Qed.

Lemma last_value_None k kvs : last_value k kvs = None ↔ k ∉ kvs.*1.
Proof.
  induction kvs as [|[k' v] kvs IH]; simpl.
  - split; [intros _; apply not_elem_of_nil | done].
  - rewrite not_elem_of_cons. destruct (last_value k kvs) eqn:E.
    + split; [done|]. intros [_ H]. by apply IH in H.
    + destruct (decide (k = k')); split; try done.
      * by intros [? _].
      * intros _. split; [done | by apply IH].
Qed.

Lemma lookup_insert_all m kvs k :
  insert_all m kvs !! k =
    match last_value k kvs with Some v => Some v | None => m !! k end.
Proof.
  revert m. induction kvs as [|[k' v] kvs IH]; intros m; [done|].
  unfold insert_all. simpl. fold (insert_all (<[k' := v]> m) kvs).
  rewrite IH. destruct (last_value k kvs); [done|].
  destruct (decide (k = k')) as [->|].
  - by rewrite lookup_insert_eq.
  - by rewrite lookup_insert_ne.
Qed.

Lemma dom_insert_all m kvs :
  dom (insert_all m kvs) = dom m ∪ list_to_set kvs.*1.
Proof.
  revert m. induction kvs as [|[k v] kvs IH]; intros m.
  - simpl. by rewrite (right_id_L ∅ (∪)).
  - unfold insert_all. simpl. fold (insert_all (<[k := v]> m) kvs).
    rewrite IH, dom_insert_L.
    by rewrite (comm_L (∪) {[k]} (dom m)), (assoc_L (∪)).
Qed.

Lemma size_insert_all_le m kvs :
  (size (insert_all m kvs) ≤ size m + length kvs)%nat.
Proof.
  revert m. induction kvs as [|[k v] kvs IH]; intros m.
  - simpl. lia.
  - unfold insert_all. simpl. fold (insert_all (<[k := v]> m) kvs).
    etrans; [apply IH|].
    destruct (m !! k) eqn:E.
    + rewrite map_size_insert_Some by eauto. lia.
    + rewrite map_size_insert_None by done. lia.
Qed.

Lemma size_insert_all_distinct m kvs :
  NoDup kvs.*1 → (∀ k, k ∈ kvs.*1 → m !! k = None) →
  size (insert_all m kvs) = size m + length kvs.
Proof.
  revert m. induction kvs as [|[k v] kvs IH]; intros m Hnd Hm.
  - simpl. lia.
  - rewrite fmap_cons in Hnd. apply NoDup_cons in Hnd as [Hk Hnd].
    unfold insert_all. simpl. fold (insert_all (<[k := v]> m) kvs).
    rewrite IH; [|done|].
    + rewrite map_size_insert_None; [lia|]. apply Hm. rewrite fmap_cons. left.
    + intros k' Hk'. rewrite lookup_insert_ne.
      * apply Hm. rewrite fmap_cons. by right.
      * simpl in Hk. intros ->. done.
Qed.

(** The profile filled from entries none of which is named [__proto__]:
    its keys are [username] and the names, at most one more than there are
    entries and exactly one more when the names are distinct and differ
    from [username]; every name holds the value of its last entry. *)
Lemma profile_keys_and_values u kvs :
  let m := insert_all {[ "username" := u ]} kvs in
  dom m = {[ "username" ]} ∪ list_to_set kvs.*1
  ∧ (size m ≤ S (length kvs))%nat
  ∧ (NoDup kvs.*1 → "username" ∉ kvs.*1 → size m = S (length kvs))
  ∧ (∀ k v, last_value k kvs = Some v → m !! k = Some v)
  ∧ ("username" ∉ kvs.*1 → m !! "username" = Some u).
Proof.
  simpl. split; [|split; [|split; [|split]]].
  - by rewrite dom_insert_all, dom_singleton_L.
  - etrans; [apply size_insert_all_le|]. by rewrite map_size_singleton.
  - intros Hnd Hu. rewrite size_insert_all_distinct, ?map_size_singleton; [done..|].
    intros k Hk. apply lookup_singleton_ne. by intros <-.
  - intros k v Hk. by rewrite lookup_insert_all, Hk.
  - intros Hu. apply last_value_None in Hu.
    by rewrite lookup_insert_all, Hu, lookup_singleton_eq.
Qed.

End Lemmas.

(** ** Running the handlers *)

Section Run.

Context {Base : Type}.
Implicit Types (s : state (Base := Base)) (l : loc).

Lemma fills_refl l s : fills l s s.
Proof. by repeat split. Qed.

Lemma fills_trans l s1 s2 s3 : fills l s1 s2 → fills l s2 s3 → fills l s1 s3.
Proof.
  intros (Ht & Hc & Hh & Hl) (Ht' & Hc' & Hh' & Hl').
  repeat split; try congruence; [|tauto].
  intros l' Hne. rewrite Hh', Hh; done.
Qed.

Lemma assign_fills l k v s : fills l s (assign l k v s).2.
Proof.
  repeat split; simpl.
  - intros l' Hne. by rewrite lookup_alter_ne.
  - rewrite lookup_alter_eq. intros [o ->]. by eexists.
Qed.

Lemma loop_body_fills l item s : fills l s (loop_body l item s).2.
Proof.
  unfold loop_body, bind, lift.
  destruct (Get item "Name") as [n|]; [|apply fills_refl].
  destruct (ToPropertyKey n) as [k|]; [|apply fills_refl].
  destruct (Get item "Value") as [v|]; [|apply fills_refl].
  apply assign_fills.
Qed.

Lemma for_of_fills l items s : fills l s (for_of items (loop_body l) s).2.
Proof.
  revert s. induction items as [|item items IH]; intros s; simpl.
  - apply fills_refl.
  - unfold bind. pose proof (loop_body_fills l item s) as Hb.
    destruct (loop_body l item s) as [[[]|e] s1]; simpl in *; [|done].
    eapply fills_trans; [exact Hb | apply IH].
Qed.

Lemma loop_body_entry l item k v s :
  entry item k v → loop_body l item s = assign l k v s.
Proof.
  intros (n & Hn & Hk & Hv). unfold loop_body, bind, lift.
  by rewrite Hn, Hk, Hv.
Qed.

Lemma for_of_entries l items kvs s :
  entries items kvs →
  for_of items (loop_body l) s =
    (Normal tt,
     State (this s) (alter (fun o => set_all o kvs) l (heap s)) (calls s)).
Proof.
  intros H. revert s.
  induction H as [|item [k v] items kvs He _ IH]; intros s; simpl.
  - unfold ret. rewrite alter_id; [by destruct s | done].
  - unfold bind. rewrite (loop_body_entry _ _ _ _ _ He). unfold assign.
    rewrite IH. simpl. by rewrite alter_alter_eq.
Qed.

(** The profile a response yields when every entry can be processed. *)
Lemma build_profile_entries getUserResponse u attributes items kvs s :
  Get getUserResponse "Username" = Normal u →
  Get getUserResponse "UserAttributes" = Normal attributes →
  iterate attributes = Normal items →
  entries items kvs →
  build_profile getUserResponse s =
    (Normal (fresh (dom (heap s))),
     State (this s)
       (<[fresh (dom (heap s)) :=
            set_all (Object {[ "username" := u ]} ObjectPrototype) kvs]> (heap s))
       (calls s)).
Proof.
  intros Hu Ha Hi He. unfold build_profile, bind, lift, alloc, ret.
  rewrite Hu, Ha, Hi. rewrite (for_of_entries _ _ _ _ He). simpl.
  by rewrite alter_insert_eq.
Qed.

(** Whatever the response, building the profile touches nothing but a
    newly allocated object. *)
Lemma build_profile_frame getUserResponse s :
  let r := build_profile getUserResponse s in
  this r.2 = this s ∧ calls r.2 = calls s
  ∧ (∀ l o, heap s !! l = Some o → heap r.2 !! l = Some o)
  ∧ (∀ l, r.1 = Normal l → heap s !! l = None ∧ is_Some (heap r.2 !! l)).
Proof.
  unfold build_profile, bind, lift, alloc, ret. simpl.
  destruct (Get getUserResponse "Username") as [u|]; simpl; [|by repeat split].
  set (l := fresh (dom (heap s))).
  set (s1 := State (this s) (<[l := Object {[ "username" := u ]} ObjectPrototype]> (heap s)) (calls s)).
  assert (Hl : heap s !! l = None)
    by (apply not_elem_of_dom; apply is_fresh).
  assert (Hold : ∀ l' o, heap s !! l' = Some o → heap s1 !! l' = Some o).
  { intros l' o Ho. simpl. rewrite lookup_insert_ne; [done|]. intros <-. congruence. }
  destruct (Get getUserResponse "UserAttributes") as [attributes|]; simpl;
    [|by repeat split].
  destruct (iterate attributes) as [items|]; simpl; [|by repeat split].
  pose proof (for_of_fills l items s1) as (Ht & Hc & Hh & Hs).
  destruct (for_of items (loop_body l) s1) as [[[]|e] s2]; simpl in *.
  - split; [done|]. split; [done|]. split.
    + intros l' o Ho. rewrite Hh; [by apply Hold|]. intros ->. congruence.
    + intros l' [= <-]. split; [done|]. apply Hs. rewrite lookup_insert_eq. by eexists.
  - split; [done|]. split; [done|]. split; [|done].
    intros l' o Ho. rewrite Hh; [by apply Hold|]. intros ->. congruence.
Qed.

End Run.

(** ** The constructor: statements *)

Section ConstructorFacts.

Context {Verify Base : Type}.
Variable OAuth2Strategy : OAuth2Options.t → Verify → completion Base.
Variable new_client : value → completion unit.


Lemma options_of_domain p d :
  ToString (clientDomain p) = Normal d →
  options_of p =
    Normal (OAuth2Options.Make (d +:+ "/oauth2/authorize") (clientID p)
              (clientSecret p) (callbackURL p) (passReqToCallback p)
              (d +:+ "/oauth2/token")).
Proof. intros Hd. unfold options_of, template. by rewrite Hd. Qed.

Lemma Strategy_domain config verify p d :
  destructure config = Normal p →
  ToString (clientDomain p) = Normal d →
  Strategy OAuth2Strategy new_client config verify =
    let! base :=
      OAuth2Strategy
        (OAuth2Options.Make (d +:+ "/oauth2/authorize") (clientID p)
           (clientSecret p) (callbackURL p) (passReqToCallback p)
           (d +:+ "/oauth2/token"))
        verify in
    let! constructed := new_client (clientRegion p) in
    Normal (Instance base (Client (clientRegion p)) "cognito-oauth2").
Proof.
  intros Hp Hd. unfold Strategy. rewrite Hp. simpl.
  by rewrite (options_of_domain _ _ Hd).
Qed.


(** C7.  For a configuration whose [clientDomain] is the string [domain],
    the options handed to the inherited constructor carry the
    authorization endpoint [domain/oauth2/authorize] and the token
    endpoint [domain/oauth2/token]. *)
Theorem Strategy_endpoints config verify p domain :
  destructure config = Normal p →
  clientDomain p = VStr domain →
  ∃ options,
    options_of p = Normal options
    ∧ OAuth2Options.authorizationURL options = domain +:+ "/oauth2/authorize"
    ∧ OAuth2Options.tokenURL options = domain +:+ "/oauth2/token"
    ∧ Strategy OAuth2Strategy new_client config verify =
        let! base := OAuth2Strategy options verify in
        let! constructed := new_client (clientRegion p) in
        Normal (Instance base (Client (clientRegion p)) "cognito-oauth2").
Proof.
  intros Hp Hd.
  assert (Hs : ToString (clientDomain p) = Normal domain) by (by rewrite Hd).
  eexists. split; [by apply options_of_domain|].
  split; [done|]. split; [done|].
  by apply Strategy_domain.
Qed.

(** C8, at the configuration of the documentation.  Whatever the
    inherited constructor does, a strategy constructed from the documented
    options, which name the region [region], has a client whose region is
    [undefined]: the constructor reads [clientRegion]. *)
Theorem Strategy_documented_region_ignored verify inst :
  Strategy OAuth2Strategy new_client documented_options verify = Normal inst →
  Get documented_options "region" = Normal (VStr "us-west-2")
  ∧ region (cognitoClient inst) = VUndefined.
Proof.
  intros H. split; [reflexivity|].
  unfold Strategy in H. simpl in H.
  destruct (OAuth2Strategy _ verify); simpl in H; [|discriminate].
  destruct (new_client VUndefined); simpl in H; [|discriminate].
  by injection H as <-.
Qed.

End ConstructorFacts.



(** Witness for C7, at the documented configuration. *)
Lemma Strategy_endpoints_witness :
  ∃ options,
    options_of
      (Params (VStr "https://myapp.auth.us-west-2.amazoncognito.com")
         (VStr "123-456-789") (VStr "shhh-its-a-secret")
         (VStr "https://myapp.com/auth/cognito/callback") VUndefined VUndefined)
    = Normal options
    ∧ OAuth2Options.authorizationURL options
      = "https://myapp.auth.us-west-2.amazoncognito.com" +:+ "/oauth2/authorize"
    ∧ OAuth2Options.tokenURL options
      = "https://myapp.auth.us-west-2.amazoncognito.com" +:+ "/oauth2/token"
    ∧ Strategy (PassportOAuth2.OAuth2Strategy parsing) accepting documented_options
        PassportOAuth2.VerifyFunction
      = let! base :=
          PassportOAuth2.OAuth2Strategy parsing options PassportOAuth2.VerifyFunction in
        let! constructed := accepting VUndefined in
        Normal (Instance base (Client VUndefined) "cognito-oauth2").
Proof.
  apply (Strategy_endpoints (PassportOAuth2.OAuth2Strategy parsing) accepting
           documented_options PassportOAuth2.VerifyFunction
           (Params (VStr "https://myapp.auth.us-west-2.amazoncognito.com")
              (VStr "123-456-789") (VStr "shhh-its-a-secret")
              (VStr "https://myapp.com/auth/cognito/callback") VUndefined VUndefined)
           "https://myapp.auth.us-west-2.amazoncognito.com").
  - reflexivity.
  - reflexivity.
Defined.

(** Witness for C8, with the constructor of passport-oauth2. *)
Lemma Strategy_documented_region_ignored_witness :
  Get documented_options "region" = Normal (VStr "us-west-2")
  ∧ region (cognitoClient
      (Instance
         (PassportOAuth2.Base PassportOAuth2.VerifyFunction
            (OAuth2Options.Make
               "https://myapp.auth.us-west-2.amazoncognito.com/oauth2/authorize"
               (VStr "123-456-789") (VStr "shhh-its-a-secret")
               (VStr "https://myapp.com/auth/cognito/callback") VUndefined
               "https://myapp.auth.us-west-2.amazoncognito.com/oauth2/token"))
         (Client VUndefined) "cognito-oauth2")) = VUndefined.
Proof.
  apply (Strategy_documented_region_ignored (PassportOAuth2.OAuth2Strategy parsing)
           accepting PassportOAuth2.VerifyFunction).
  reflexivity.
Defined.

(** ** userProfile: statements *)

Section UserProfileFacts.

Context {Base : Type}.
Variable send : CognitoIdentityProviderClient → GetUserCommand → promise value.
Implicit Types (s : state (Base := Base)) (l : loc) (done : callback).

Lemma userProfile_pending token done s :
  send (cognitoClient (this s)) (Command token) = Pending →
  userProfile send token done s = Outcome (Normal tt) Pending s.
Proof. intros H. unfold userProfile. by rewrite H. Qed.

(** The call itself never throws: the handlers run later, as reactions. *)
Lemma userProfile_returns token done s :
  returned (userProfile send token done s) = Normal tt.
Proof.
  unfold userProfile.
  destruct (then_ _ _ s) as [p2 s2]. by destruct (catch_ p2 _ s2).
Qed.

Lemma final_rejected token done s e :
  send (cognitoClient (this s)) (Command token) = Rejected e →
  final (userProfile send token done s) = (on_rejected done e s).2.
Proof.
  intros H. unfold userProfile. rewrite H.
  unfold then_, catch_, on_rejected, invoke.
  by destruct (done (Some e) None (heap s)).
Qed.

Lemma final_fulfilled_returns token done s getUserResponse u s' :
  send (cognitoClient (this s)) (Command token) = Fulfilled getUserResponse →
  on_fulfilled done getUserResponse s = (Normal u, s') →
  final (userProfile send token done s) = s'.
Proof. intros H H'. unfold userProfile. rewrite H. simpl. by rewrite H'. Qed.

Lemma final_fulfilled_throws token done s getUserResponse e s' :
  send (cognitoClient (this s)) (Command token) = Fulfilled getUserResponse →
  on_fulfilled done getUserResponse s = (Throw e, s') →
  final (userProfile send token done s) = (on_rejected done e s').2.
Proof.
  intros H H'. unfold userProfile. rewrite H.
  unfold then_. rewrite H'.
  unfold catch_, on_rejected, invoke.
  by destruct (done (Some e) None (heap s')).
Qed.

(** What the fulfilment handler does, by the outcome of building the
    profile. *)
Lemma on_fulfilled_built done getUserResponse s l s1 :
  build_profile getUserResponse s = (Normal l, s1) →
  on_fulfilled done getUserResponse s =
    (done None (Some l) (heap s1),
     State (this s1) (heap s1) (calls s1 ++ [Call None (Some l) (heap s1)])).
Proof. intros H. unfold on_fulfilled, bind. by rewrite H. Qed.

Lemma on_fulfilled_failed done getUserResponse s e s1 :
  build_profile getUserResponse s = (Throw e, s1) →
  on_fulfilled done getUserResponse s = (Throw e, s1).
Proof. intros H. unfold on_fulfilled, bind. by rewrite H. Qed.

(** The state reached when the response is processed to the end: the
    success call, followed by an error call exactly when the callback
    threw. *)
Lemma final_fulfilled_built token done s getUserResponse l s1 :
  send (cognitoClient (this s)) (Command token) = Fulfilled getUserResponse →
  build_profile getUserResponse s = (Normal l, s1) →
  final (userProfile send token done s) =
    State (this s1) (heap s1)
      (calls s1 ++ Call None (Some l) (heap s1) ::
         match done None (Some l) (heap s1) with
         | Normal _ => []
         | Throw e => [Call (Some e) None (heap s1)]
         end).
Proof.
  intros Hs Hb. pose proof (on_fulfilled_built done _ _ _ _ Hb) as Hf.
  destruct (done None (Some l) (heap s1)) as [[]|e].
  - by rewrite (final_fulfilled_returns _ _ _ _ _ _ Hs Hf).
  - rewrite (final_fulfilled_throws _ _ _ _ _ _ Hs Hf). simpl.
    by rewrite <- app_assoc.
Qed.

(** The state reached when building the profile throws. *)
Lemma final_fulfilled_failed token done s getUserResponse e s1 :
  send (cognitoClient (this s)) (Command token) = Fulfilled getUserResponse →
  build_profile getUserResponse s = (Throw e, s1) →
  final (userProfile send token done s) =
    State (this s1) (heap s1) (calls s ++ [Call (Some e) None (heap s1)]).
Proof.
  intros Hs Hb. pose proof (on_fulfilled_failed done _ _ _ _ Hb) as Hf.
  rewrite (final_fulfilled_throws _ _ _ _ _ _ Hs Hf). simpl.
  pose proof (build_profile_frame getUserResponse s) as (_ & Hc & _).
  rewrite Hb in Hc. simpl in Hc. by rewrite Hc.
Qed.

(** The profile handed to the callback for a response whose entries can
    all be processed and none of which is named [__proto__]: the
    [username] and, for every name, the value of its last entry. *)
Lemma userProfile_profile token done s getUserResponse u attributes items kvs :
  send (cognitoClient (this s)) (Command token) = Fulfilled getUserResponse →
  Get getUserResponse "Username" = Normal u →
  Get getUserResponse "UserAttributes" = Normal attributes →
  iterate attributes = Normal items →
  entries items kvs →
  "__proto__" ∉ kvs.*1 →
  ∃ l h rest,
    calls (final (userProfile send token done s)) =
      calls s ++ Call None (Some l) h :: rest
    ∧ heap s !! l = None
    ∧ h !! l = Some (Object (insert_all {[ "username" := u ]} kvs) ObjectPrototype)
    ∧ (rest = [] ∨ ∃ e, rest = [Call (Some e) None h]).
Proof.
  intros Hs Hu Ha Hi He Hp.
  pose proof (build_profile_entries _ _ _ _ _ s Hu Ha Hi He) as Hb.
  rewrite set_all_plain in Hb by done. simpl in Hb.
  eexists _, _, _. split; [|split; [|split]].
  - rewrite (final_fulfilled_built _ done _ _ _ _ Hs Hb). reflexivity.
  - apply not_elem_of_dom, is_fresh.
  - simpl. by rewrite lookup_insert_eq.
  - simpl. destruct (done _ _ _); eauto.
Qed.

(** The same for a response made of a username and (name, value) pairs. *)
Lemma userProfile_response token done s u attributes :
  send (cognitoClient (this s)) (Command token) = Fulfilled (response u attributes) →
  "__proto__" ∉ attributes.*1 →
  ∃ l h rest,
    calls (final (userProfile send token done s)) =
      calls s ++ Call None (Some l) h :: rest
    ∧ heap s !! l = None
    ∧ h !! l = Some (Object (insert_all {[ "username" := VStr u ]}
                               ((fun nv => (nv.1, VStr nv.2)) <$> attributes))
                       ObjectPrototype)
    ∧ (rest = [] ∨ ∃ e, rest = [Call (Some e) None h]).
Proof.
  intros Hs Hp.
  apply (userProfile_profile token done s (response u attributes) (VStr u)
           (VArr ((fun nv => attribute nv.1 nv.2) <$> attributes))
           ((fun nv => attribute nv.1 nv.2) <$> attributes)); try done.
  - apply Forall2_fmap, Forall_Forall2_diag, Forall_forall.
    intros [n v] _. by exists (VStr n).
  - by rewrite <- list_fmap_compose.
Qed.

(** X13.  When the callback returns from every invocation and the promise
    settles, it is invoked exactly once. *)
Lemma userProfile_once_when_done_returns token done s :
  (∀ err profile h, done err profile h = Normal tt) →
  send (cognitoClient (this s)) (Command token) ≠ Pending →
  ∃ c, calls (final (userProfile send token done s)) = calls s ++ [c].
Proof.
  intros Hd Hp.
  destruct (send (cognitoClient (this s)) (Command token)) as [|r|e] eqn:Hs;
    [done| |].
  - destruct (build_profile r s) as [[l|e] s1] eqn:Hb.
    + rewrite (final_fulfilled_built _ done _ _ _ _ Hs Hb), Hd.
      pose proof (build_profile_frame r s) as (_ & Hc & _).
      rewrite Hb in Hc. simpl in Hc. simpl. rewrite Hc. by eexists.
    + rewrite (final_fulfilled_failed _ done _ _ _ _ Hs Hb). by eexists.
  - rewrite (final_rejected _ _ _ _ Hs). simpl. by eexists.
Qed.

(** Every invocation leaves the strategy and the objects that existed
    before untouched, and the profile it hands to the callback is an
    object that did not exist before. *)
Lemma userProfile_effects token done s :
  let r := userProfile send token done s in
  this (final r) = this s
  ∧ (∀ l o, heap s !! l = Some o → heap (final r) !! l = Some o)
  ∧ ∃ new, calls (final r) = calls s ++ new
      ∧ ∀ c l, c ∈ new → call_profile c = Some l →
          heap s !! l = None ∧ is_Some (heap (final r) !! l).
Proof.
  simpl.
  destruct (send (cognitoClient (this s)) (Command token)) as [|r|e] eqn:Hs.
  - rewrite (userProfile_pending _ _ _ Hs). simpl.
    split; [done|]. split; [done|]. exists []. split; [by rewrite app_nil_r|].
    intros c l Hc. by apply elem_of_nil in Hc.
  - pose proof (build_profile_frame r s) as (Ht & Hc & Hh & Hl).
    destruct (build_profile r s) as [[l|e] s1] eqn:Hb; simpl in *.
    + rewrite (final_fulfilled_built _ done _ _ _ _ Hs Hb). simpl.
      split; [done|]. split; [done|]. rewrite Hc. eexists. split; [done|].
      intros c l' Hin Hp. destruct (Hl l eq_refl) as [Hnone Hsome].
      apply elem_of_cons in Hin as [->|Hin]; simpl in Hp.
      * by injection Hp as <-.
      * destruct (done None (Some l) (heap s1));
          [by apply elem_of_nil in Hin|].
        apply list_elem_of_singleton in Hin as ->. discriminate.
    + rewrite (final_fulfilled_failed _ done _ _ _ _ Hs Hb). simpl.
      split; [done|]. split; [done|]. eexists. split; [done|].
      intros c l' Hin Hp. apply list_elem_of_singleton in Hin as ->. discriminate.
  - rewrite (final_rejected _ _ _ _ Hs). simpl.
    split; [done|]. split; [done|]. eexists. split; [done|].
    intros c l' Hin Hp. apply list_elem_of_singleton in Hin as ->. discriminate.
Qed.

Lemma for_of_nullish l items s :
  existsb nullish items = true →
  ∃ e, (for_of items (loop_body l) s).1 = Throw e.
Proof.
  revert s. induction items as [|item items IH]; intros s H; simpl in *;
    [done|].
  unfold bind. destruct (loop_body l item s) as [[[]|e] s1] eqn:E.
  - apply orb_true_iff in H as [H|H]; [|by apply IH].
    destruct item; try discriminate H; discriminate E.
  - by eexists.
Qed.

Lemma build_profile_malformed getUserResponse s :
  malformed_attributes getUserResponse = true →
  ∃ e, (build_profile getUserResponse s).1 = Throw e.
Proof.
  intros Hm. unfold build_profile, bind, lift, alloc, ret.
  destruct getUserResponse as [| |b|str|items|fields]; simpl in *;
    try (eexists; reflexivity).
  destruct (assoc "UserAttributes" fields) as [[| |b|str|items|fs]|];
    simpl in *; try discriminate; try (eexists; reflexivity).
  match goal with
  | |- context [for_of items (loop_body ?l) ?s1] =>
      destruct (for_of_nullish l items s1 Hm) as [e He];
      destruct (for_of items (loop_body l) s1) as [[[]|e'] s2]
  end; simpl in *; [discriminate | by eexists].
Qed.

(** C2.  When the GetUser call rejects with [e], the callback is invoked
    once, with [e] and a null profile, and no profile object has been
    created. *)
Theorem userProfile_rejected token done s e :
  send (cognitoClient (this s)) (Command token) = Rejected e →
  calls (final (userProfile send token done s))
    = calls s ++ [Call (Some e) None (heap s)]
  ∧ heap (final (userProfile send token done s)) = heap s.
Proof. intros Hs. by rewrite (final_rejected _ _ _ _ Hs). Qed.

(** C4, as amended.  When the response is not an object, or its
    [UserAttributes] is missing or is neither an array nor a string, or
    the array holds a [null] or [undefined] entry, the callback is invoked
    once, with an error and a null profile: the object under construction
    is not handed to it. *)
Theorem userProfile_malformed_attributes token done s getUserResponse :
  send (cognitoClient (this s)) (Command token) = Fulfilled getUserResponse →
  malformed_attributes getUserResponse = true →
  ∃ e h, calls (final (userProfile send token done s))
           = calls s ++ [Call (Some e) None h].
Proof.
  intros Hs Hm. destruct (build_profile_malformed _ s Hm) as [e He].
  destruct (build_profile getUserResponse s) as [c s1] eqn:Hb.
  simpl in He. subst c.
  rewrite (final_fulfilled_failed _ done _ _ _ _ Hs Hb). by eexists _, _.
Qed.

(** C9.  A call of [userProfile] completes normally, and when the
    fulfilment handler throws [e] on the response (while building the
    profile, or from the callback), the rejection handler hands [e] and a
    null profile to the callback. *)
Theorem userProfile_exception_delivered token done s :
  returned (userProfile send token done s) = Normal tt
  ∧ ∀ getUserResponse e s',
      send (cognitoClient (this s)) (Command token) = Fulfilled getUserResponse →
      on_fulfilled done getUserResponse s = (Throw e, s') →
      calls (final (userProfile send token done s))
        = calls s' ++ [Call (Some e) None (heap s')].
Proof.
  split; [apply userProfile_returns|]. intros r e s' Hs Hf.
  by rewrite (final_fulfilled_throws _ _ _ _ _ _ Hs Hf).
Qed.

(** C10.  An invocation changes no field of the strategy and no object
    that existed before, and the profile it hands to the callback is a new
    object; so the profiles of two successive invocations are different
    objects, and the second invocation leaves the profile of the first as
    it was. *)
Theorem userProfile_frame token1 done1 token2 done2 s :
  let r1 := userProfile send token1 done1 s in
  let r2 := userProfile send token2 done2 (final r1) in
  this (final r1) = this s
  ∧ (∀ l o, heap s !! l = Some o → heap (final r1) !! l = Some o)
  ∧ (∀ c l, c ∈ drop (length (calls s)) (calls (final r1)) →
       call_profile c = Some l → heap s !! l = None)
  ∧ (∀ c1 c2 l1 l2,
       c1 ∈ drop (length (calls s)) (calls (final r1)) →
       c2 ∈ drop (length (calls (final r1))) (calls (final r2)) →
       call_profile c1 = Some l1 → call_profile c2 = Some l2 →
       l1 ≠ l2 ∧ heap (final r2) !! l1 = heap (final r1) !! l1).
Proof.
  intros r1 r2.
  destruct (userProfile_effects token1 done1 s) as (Ht1 & Hh1 & new1 & Hc1 & Hn1).
  destruct (userProfile_effects token2 done2 (final r1))
    as (Ht2 & Hh2 & new2 & Hc2 & Hn2).
  fold r1 in Ht1, Hh1, Hc1, Hn1. fold r2 in Ht2, Hh2, Hc2, Hn2.
  rewrite Hc2, Hc1.
  rewrite (drop_app_length (calls s) new1).
  rewrite (drop_app_length (calls s ++ new1) new2).
  split; [done|]. split; [done|]. split.
  - intros c l Hin Hp. by destruct (Hn1 c l Hin Hp).
  - intros c1 c2 l1 l2 Hin1 Hin2 Hp1 Hp2.
    destruct (Hn1 c1 l1 Hin1 Hp1) as [_ [o Ho]].
    destruct (Hn2 c2 l2 Hin2 Hp2) as [Hnone _].
    split; [congruence|].
    rewrite Ho. by apply Hh2.
Qed.

End UserProfileFacts.

(** ** userProfile on concrete responses *)

(** The scenario of the specification: two [email] entries. *)
Example userProfile_alice :
  let r :=
    userProfile
      (fulfils (response "alice" [("email", "a@x.com"); ("email", "a2@x.com")]))
      (VStr "tok-123") returning initial in
  calls (final r) = [Call None (Some 1%positive) (heap (final r))]
  ∧ heap (final r) !! 1%positive
    = Some (Object {[ "username" := VStr "alice"; "email" := VStr "a2@x.com" ]}
              ObjectPrototype).
Proof. vm_compute. done. Qed.

(** An empty attribute list: the profile has the one key [username]. *)
Example userProfile_no_attributes :
  let r := userProfile (fulfils (response "alice" [])) (VStr "tok-123") returning initial in
  calls (final r) = [Call None (Some 1%positive) (heap (final r))]
  ∧ heap (final r) !! 1%positive
    = Some (Object {[ "username" := VStr "alice" ]} ObjectPrototype).
Proof. vm_compute. done. Qed.

(** An entry named [username] replaces the username of the response. *)
Example userProfile_username_attribute :
  let r :=
    userProfile (fulfils (response "alice" [("username", "bob")]))
      (VStr "tok-123") returning initial in
  calls (final r) = [Call None (Some 1%positive) (heap (final r))]
  ∧ heap (final r) !! 1%positive
    = Some (Object {[ "username" := VStr "bob" ]} ObjectPrototype).
Proof. vm_compute. done. Qed.

(** C1, where the code departs from it.  A response with the username
    [alice] and the one entry [{Name: "__proto__", Value: "x"}] is handed to
    the callback as a profile with the single key [username]: the
    assignment runs the [__proto__] setter, which ignores a string. *)
Theorem userProfile_proto_attribute_dropped :
  let r :=
    userProfile (fulfils (response "alice" [("__proto__", "x")]))
      (VStr "tok-123") returning initial in
  calls (final r) = [Call None (Some 1%positive) (heap (final r))]
  ∧ heap (final r) !! 1%positive
    = Some (Object {[ "username" := VStr "alice" ]} ObjectPrototype)
  ∧ ∀ o, heap (final r) !! 1%positive = Some o → size (keys o) = 1.
Proof.
  vm_compute. split; [done|]. split; [done|].
  intros o [= <-]. done.
Qed.

(** C3, where the code departs from it.  With two entries named
    [__proto__], the profile handed to the callback has no property of that
    name holding the value of the last one. *)
Theorem userProfile_proto_attribute_not_last :
  let r :=
    userProfile
      (fulfils (response "alice" [("__proto__", "a"); ("__proto__", "b")]))
      (VStr "tok-123") returning initial in
  calls (final r) = [Call None (Some 1%positive) (heap (final r))]
  ∧ ∀ o, heap (final r) !! 1%positive = Some o →
      own o !! "__proto__" = None ∧ prototype o = ObjectPrototype.
Proof.
  vm_compute. split; [done|].
  intros o [= <-]. done.
Qed.

(** C5, where the code departs from it.  When the callback throws on the
    profile it is handed, the rejection handler of the chain invokes it a
    second time, with the error it threw. *)
Theorem userProfile_invokes_twice :
  let r :=
    userProfile (fulfils (response "alice" [("email", "a@x.com")]))
      (VStr "tok-123") throwing_on_profile initial in
  calls (final r)
    = [Call None (Some 1%positive) (heap (final r));
       Call (Some (TypeError "verify failed")) None (heap (final r))]
  ∧ length (calls (final r)) = 2.
Proof. vm_compute. done. Qed.

(** Counterexample to C4 as stated: a response without [Username] is
    reported as a success, with a profile whose [username] is
    [undefined]. *)
Lemma userProfile_missing_username_succeeds :
  let getUserResponse := VObj [("UserAttributes", VArr [attribute "email" "a@x.com"])] in
  let r := userProfile (fulfils getUserResponse) (VStr "tok-123") returning initial in
  Get getUserResponse "Username" = Normal VUndefined
  ∧ calls (final r) = [Call None (Some 1%positive) (heap (final r))]
  ∧ heap (final r) !! 1%positive
    = Some (Object {[ "username" := VUndefined; "email" := VStr "a@x.com" ]}
              ObjectPrototype).
Proof. vm_compute. done. Qed.

(** Witness for C2: the scenario of the specification in which the token
    is refused. *)
Lemma userProfile_rejected_witness :
  let e := ServiceError "NotAuthorizedException" "Invalid Access Token" in
  calls (final (userProfile (rejects e) (VStr "bad-tok") returning initial))
    = calls initial ++ [Call (Some e) None (heap initial)]
  ∧ heap (final (userProfile (rejects e) (VStr "bad-tok") returning initial))
    = heap initial.
Proof.
  intros e.
  apply (userProfile_rejected (rejects e) (VStr "bad-tok") returning initial e).
  reflexivity.
Defined.

(** Witness for C4: a response without [UserAttributes]. *)
Lemma userProfile_malformed_attributes_witness :
  ∃ e h,
    calls (final (userProfile (fulfils (VObj [("Username", VStr "alice")]))
                    (VStr "tok-123") returning initial))
    = calls initial ++ [Call (Some e) None h].
Proof.
  apply (userProfile_malformed_attributes
           (fulfils (VObj [("Username", VStr "alice")]))
           (VStr "tok-123") returning initial
           (VObj [("Username", VStr "alice")])).
  - reflexivity.
  - reflexivity.
Defined.

(** Witness for C9: an attribute list whose second entry is [null]. *)
Lemma userProfile_exception_delivered_witness :
  let getUserResponse :=
    VObj [("Username", VStr "alice");
          ("UserAttributes", VArr [attribute "email" "a@x.com"; VNull])] in
  let e := TypeError "Cannot read properties of null (reading 'Name')" in
  let s' := (on_fulfilled returning getUserResponse initial).2 in
  calls (final (userProfile (fulfils getUserResponse) (VStr "tok-123")
                  returning initial))
  = calls s' ++ [Call (Some e) None (heap s')].
Proof.
  intros getUserResponse e s'.
  apply (proj2 (userProfile_exception_delivered (fulfils getUserResponse)
                  (VStr "tok-123") returning initial) getUserResponse e s').
  - reflexivity.
  - vm_compute. reflexivity.
Defined.

(** ** The constructor: further properties *)

Section ConstructorProperties.

Context {Verify Base : Type}.
Variable OAuth2Strategy : OAuth2Options.t → Verify → completion Base.
Variable new_client : value → completion unit.

Lemma append_suffix_truthy d c suffix :
  truthy (VStr (d +:+ String c suffix)) = true.
Proof. by destruct d. Qed.

Lemma destructure_reads config p :
  destructure config = Normal p →
  Get config "clientDomain" = Normal (clientDomain p)
  ∧ Get config "clientID" = Normal (clientID p)
  ∧ Get config "clientSecret" = Normal (clientSecret p)
  ∧ Get config "callbackURL" = Normal (callbackURL p)
  ∧ Get config "passReqToCallback" = Normal (passReqToCallback p)
  ∧ Get config "clientRegion" = Normal (clientRegion p).
Proof.
  destruct config; simpl; try discriminate; by intros [= <-].
Qed.

Lemma options_of_passes p options :
  options_of p = Normal options →
  OAuth2Options.clientID options = clientID p
  ∧ OAuth2Options.clientSecret options = clientSecret p
  ∧ OAuth2Options.callbackURL options = callbackURL p
  ∧ OAuth2Options.passReqToCallback options = passReqToCallback p.
Proof.
  unfold options_of, template.
  destruct (ToString (clientDomain p)); simpl; [|discriminate].
  by intros [= <-].
Qed.

(** X1.  Called with [undefined] or [null] in place of the options, the
    constructor throws a [TypeError] while binding its parameters, whatever
    the inherited constructor would do. *)
Theorem Strategy_nullish_options config verify :
  nullish config = true →
  ∃ msg, Strategy OAuth2Strategy new_client config verify = Throw (TypeError msg).
Proof.
  intros Hn. destruct config; try discriminate Hn; by eexists.
Qed.

(** X2.  The constructor reads six properties of its first argument and
    nothing else: two arguments that agree on them construct the same
    strategy, so any further option is dropped before the inherited
    constructor is called. *)
Theorem Strategy_reads_six_options config1 config2 verify :
  Forall (fun k => Get config1 k = Get config2 k) option_names →
  Strategy OAuth2Strategy new_client config1 verify
  = Strategy OAuth2Strategy new_client config2 verify.
Proof.
  intros H. unfold option_names in H.
  repeat (apply Forall_cons in H as [? H]).
  unfold Strategy, destructure. by repeat match goal with
  | E : Get config1 _ = _ |- _ => rewrite E; clear E
  end.
Qed.

(** X3.  Whenever the options literal can be built, both endpoints are the
    string the domain converts to followed by the fixed suffix, and neither
    is empty: the inherited constructor never sees a missing endpoint. *)
Theorem options_of_endpoints_nonempty p options :
  options_of p = Normal options →
  ∃ d, ToString (clientDomain p) = Normal d
    ∧ OAuth2Options.authorizationURL options = d +:+ "/oauth2/authorize"
    ∧ OAuth2Options.tokenURL options = d +:+ "/oauth2/token"
    ∧ truthy (VStr (OAuth2Options.authorizationURL options)) = true
    ∧ truthy (VStr (OAuth2Options.tokenURL options)) = true.
Proof.
  unfold options_of, template.
  destruct (ToString (clientDomain p)) as [d|] eqn:Hd; simpl; [|discriminate].
  intros [= <-]. exists d. simpl.
  repeat split; apply append_suffix_truthy.
Qed.

(** X4.  A strategy that is constructed is named [cognito-oauth2], its
    client is configured with the [clientRegion] property of the argument,
    and its inherited part is what the inherited constructor returned for
    options carrying the argument's [clientID], [clientSecret],
    [callbackURL] and [passReqToCallback] unchanged. *)
Theorem Strategy_constructed config verify inst :
  Strategy OAuth2Strategy new_client config verify = Normal inst →
  name inst = "cognito-oauth2"
  ∧ Get config "clientRegion" = Normal (region (cognitoClient inst))
  ∧ ∃ options,
      OAuth2Strategy options verify = Normal (oauth2 inst)
      ∧ Get config "clientID" = Normal (OAuth2Options.clientID options)
      ∧ Get config "clientSecret" = Normal (OAuth2Options.clientSecret options)
      ∧ Get config "callbackURL" = Normal (OAuth2Options.callbackURL options)
      ∧ Get config "passReqToCallback"
        = Normal (OAuth2Options.passReqToCallback options).
Proof.
  unfold Strategy.
  destruct (destructure config) as [p|] eqn:Hp; simpl; [|discriminate].
  destruct (options_of p) as [options|] eqn:Ho; simpl; [|discriminate].
  destruct (OAuth2Strategy options verify) as [base|] eqn:Hb; simpl;
    [|discriminate].
  destruct (new_client (clientRegion p)); simpl; [|discriminate].
  intros [= <-]. simpl.
  destruct (destructure_reads config p Hp) as (_ & Hid & Hsecret & Hcb & Hreq & Hregion).
  destruct (options_of_passes p options Ho) as (Ha & Hb' & Hc & Hd).
  split; [done|]. split; [done|]. exists options.
  rewrite Ha, Hb', Hc, Hd. done.
Qed.

End ConstructorProperties.

(** Witness for X1. *)
Lemma Strategy_nullish_options_witness :
  ∃ msg,
    Strategy (PassportOAuth2.OAuth2Strategy parsing) accepting VUndefined PassportOAuth2.VerifyFunction
    = Throw (TypeError msg).
Proof.
  apply (Strategy_nullish_options (PassportOAuth2.OAuth2Strategy parsing) accepting
           VUndefined
           PassportOAuth2.VerifyFunction).
  reflexivity.
Defined.

(** Witness for X2: the documented options with a [scope] added. *)
Lemma Strategy_reads_six_options_witness :
  Strategy (PassportOAuth2.OAuth2Strategy parsing) accepting documented_options
    PassportOAuth2.VerifyFunction
  = Strategy (PassportOAuth2.OAuth2Strategy parsing) accepting
      (VObj [("scope", VArr [VStr "openid"; VStr "email"]);
             ("callbackURL", VStr "https://myapp.com/auth/cognito/callback");
             ("clientDomain", VStr "https://myapp.auth.us-west-2.amazoncognito.com");
             ("clientID", VStr "123-456-789");
             ("clientSecret", VStr "shhh-its-a-secret");
             ("region", VStr "us-west-2");
             ("state", VBool true)])
      PassportOAuth2.VerifyFunction.
Proof.
  apply (Strategy_reads_six_options (PassportOAuth2.OAuth2Strategy parsing) accepting).
  repeat constructor.
Defined.

(** Witness for X3: no domain at all. *)
Lemma options_of_endpoints_nonempty_witness :
  ∃ d, ToString VUndefined = Normal d
    ∧ "undefined/oauth2/authorize" = d +:+ "/oauth2/authorize"
    ∧ "undefined/oauth2/token" = d +:+ "/oauth2/token"
    ∧ truthy (VStr "undefined/oauth2/authorize") = true
    ∧ truthy (VStr "undefined/oauth2/token") = true.
Proof.
  apply (options_of_endpoints_nonempty
           (Params VUndefined (VStr "123-456-789") VUndefined VUndefined
              VUndefined VUndefined)
           (OAuth2Options.Make "undefined/oauth2/authorize" (VStr "123-456-789")
              VUndefined VUndefined VUndefined "undefined/oauth2/token")).
  reflexivity.
Defined.

(** Witness for X4. *)
Lemma Strategy_constructed_witness :
  let config :=
    VObj [("callbackURL", VStr "https://myapp.com/auth/cognito/callback");
          ("clientDomain", VStr "https://myapp.auth.us-west-2.amazoncognito.com");
          ("clientID", VStr "123-456-789");
          ("clientSecret", VStr "shhh-its-a-secret");
          ("clientRegion", VStr "us-west-2")] in
  name a_strategy = "cognito-oauth2"
  ∧ Get config "clientRegion" = Normal (region (cognitoClient a_strategy))
  ∧ ∃ options,
      PassportOAuth2.OAuth2Strategy parsing options PassportOAuth2.VerifyFunction
      = Normal (oauth2 a_strategy)
      ∧ Get config "clientID" = Normal (OAuth2Options.clientID options)
      ∧ Get config "clientSecret" = Normal (OAuth2Options.clientSecret options)
      ∧ Get config "callbackURL" = Normal (OAuth2Options.callbackURL options)
      ∧ Get config "passReqToCallback"
        = Normal (OAuth2Options.passReqToCallback options).
Proof.
  intros config.
  apply (Strategy_constructed (PassportOAuth2.OAuth2Strategy parsing) accepting config
           PassportOAuth2.VerifyFunction a_strategy).
  reflexivity.
Defined.

(** ** userProfile: further properties *)

Section UserProfileProperties.

Context {Base : Type}.
Variable send : CognitoIdentityProviderClient → GetUserCommand → promise value.
Implicit Types (s : state (Base := Base)) (l : loc) (done : callback).

(** Every way an invocation can go: the promise stays pending; it rejects;
    it fulfils and building the profile throws; it fulfils and the profile
    is built. *)
Lemma userProfile_cases token done s :
  let r := userProfile send token done s in
  let settle (e : exn) (h : gmap loc object) : promise unit :=
    match done (Some e) None h with
    | Normal _ => Fulfilled tt
    | Throw e' => Rejected e'
    end in
  (send (cognitoClient (this s)) (Command token) = Pending
   ∧ r = Outcome (Normal tt) Pending s)
  ∨ (∃ e, send (cognitoClient (this s)) (Command token) = Rejected e
       ∧ final r = State (this s) (heap s) (calls s ++ [Call (Some e) None (heap s)])
       ∧ chain r = settle e (heap s))
  ∨ (∃ getUserResponse e s1,
       send (cognitoClient (this s)) (Command token) = Fulfilled getUserResponse
       ∧ build_profile getUserResponse s = (Throw e, s1)
       ∧ final r = State (this s1) (heap s1) (calls s ++ [Call (Some e) None (heap s1)])
       ∧ chain r = settle e (heap s1))
  ∨ (∃ getUserResponse l s1,
       send (cognitoClient (this s)) (Command token) = Fulfilled getUserResponse
       ∧ build_profile getUserResponse s = (Normal l, s1)
       ∧ final r =
           State (this s1) (heap s1)
             (calls s ++ Call None (Some l) (heap s1) ::
                match done None (Some l) (heap s1) with
                | Normal _ => []
                | Throw e => [Call (Some e) None (heap s1)]
                end)
       ∧ chain r =
           match done None (Some l) (heap s1) with
           | Normal _ => Fulfilled tt
           | Throw e => settle e (heap s1)
           end).
Proof.
  simpl.
  destruct (send (cognitoClient (this s)) (Command token)) as [|r|e] eqn:Hs.
  - left. split; [done|]. by apply userProfile_pending.
  - pose proof (build_profile_frame r s) as (_ & Hc & _).
    destruct (build_profile r s) as [[l|e] s1] eqn:Hb; simpl in Hc.
    + right. right. right. exists r, l, s1. split; [done|]. split; [done|].
      unfold userProfile. rewrite Hs. unfold then_, catch_, on_fulfilled, bind.
      rewrite Hb. unfold invoke, on_rejected, invoke. simpl. rewrite Hc.
      destruct (done None (Some l) (heap s1)) as [[]|e]; simpl; [done|].
      rewrite <- app_assoc. simpl.
      by destruct (done (Some e) None (heap s1)) as [[]|e'].
    + right. right. left. exists r, e, s1. split; [done|]. split; [done|].
      unfold userProfile. rewrite Hs. unfold then_, catch_, on_fulfilled, bind.
      rewrite Hb. unfold on_rejected, invoke. simpl. rewrite Hc.
      by destruct (done (Some e) None (heap s1)) as [[]|e'].
  - right. left. exists e. split; [done|].
    unfold userProfile. rewrite Hs. unfold then_, catch_, on_rejected, invoke.
    simpl. by destruct (done (Some e) None (heap s)) as [[]|e'].
Qed.


(** X6.  An invocation calls the callback at most twice; it calls it not at
    all exactly when the promise stays pending, and twice only by a success
    call on which the callback threw, followed by an error call with what
    it threw. *)
Theorem userProfile_at_most_twice token done s :
  ∃ new,
    calls (final (userProfile send token done s)) = calls s ++ new
    ∧ (length new ≤ 2)%nat
    ∧ (new = [] ↔ send (cognitoClient (this s)) (Command token) = Pending)
    ∧ (length new = 2 →
       ∃ l h e, new = [Call None (Some l) h; Call (Some e) None h]
                ∧ done None (Some l) h = Throw e).
Proof.
  destruct (userProfile_cases token done s)
    as [[Hs ->]|[(e & Hs & -> & _)|[(r & e & s1 & Hs & _ & -> & _)
         |(r & l & s1 & Hs & _ & -> & _)]]]; simpl.
  - exists []. rewrite app_nil_r. repeat split; simpl; try done; lia.
  - eexists. split; [done|]. simpl. repeat split; try lia; try done.
    rewrite Hs. done.
  - eexists. split; [done|]. simpl. repeat split; try lia; try done.
    rewrite Hs. done.
  - eexists. split; [done|].
    destruct (done None (Some l) (heap s1)) as [[]|e] eqn:Hd; simpl.
    + repeat split; try lia; try done. rewrite Hs. done.
    + repeat split; try lia; try done; [by rewrite Hs|].
      intros _. by exists l, (heap s1), e.
Qed.

(** X7.  The chain ends rejected only when the last invocation of the
    callback threw, and with what it threw: a rejection of the GetUser call
    or an exception raised on the response is always handled. *)
Theorem userProfile_rejected_chain token done s e' :
  chain (userProfile send token done s) = Rejected e' →
  ∃ c, last (calls (final (userProfile send token done s))) = Some c
       ∧ done (call_err c) (call_profile c) (call_heap c) = Throw e'.
Proof.
  destruct (userProfile_cases token done s)
    as [[_ ->]|[(e & _ & -> & ->)|[(r & e & s1 & _ & _ & -> & ->)
         |(r & l & s1 & _ & _ & -> & ->)]]]; simpl.
  - discriminate.
  - destruct (done (Some e) None (heap s)) eqn:Hd; [discriminate|].
    intros [= <-]. eexists. rewrite last_snoc. by split.
  - destruct (done (Some e) None (heap s1)) eqn:Hd; [discriminate|].
    intros [= <-]. eexists. rewrite last_snoc. by split.
  - destruct (done None (Some l) (heap s1)) as [[]|e] eqn:Hd; [discriminate|].
    destruct (done (Some e) None (heap s1)) eqn:Hd'; [discriminate|].
    intros [= <-]. eexists.
    rewrite last_app_cons. by split.
Qed.

(** X14.  The callback is handed a finished profile: no object is created
    or assigned to after the first invocation of the callback, so the heap
    at every invocation is the heap the program ends with. *)
Theorem userProfile_profile_final token done s c :
  c ∈ drop (length (calls s)) (calls (final (userProfile send token done s))) →
  call_heap c = heap (final (userProfile send token done s)).
Proof.
  destruct (userProfile_cases token done s)
    as [[_ ->]|[(e & _ & -> & _)|[(r & e & s1 & _ & _ & -> & _)
         |(r & l & s1 & _ & _ & -> & _)]]]; simpl.
  - rewrite drop_all. intros H. by apply elem_of_nil in H.
  - rewrite drop_app_length. by intros ->%list_elem_of_singleton.
  - rewrite drop_app_length. by intros ->%list_elem_of_singleton.
  - rewrite drop_app_length. intros [->|H]%elem_of_cons; [done|].
    destruct (done None (Some l) (heap s1)); [by apply elem_of_nil in H|].
    by apply list_elem_of_singleton in H as ->.
Qed.

Lemma processable_entry_entry item :
  processable_entry item = true → ∃ k v, entry item k v.
Proof.
  unfold processable_entry, entry.
  destruct (Get item "Name") as [n|] eqn:Hn; simpl; [|discriminate].
  destruct (ToPropertyKey n) as [k|] eqn:Hk; simpl; [|discriminate].
  intros _. exists k.
  destruct item; try discriminate Hn; eexists; exists n; by repeat split.
Qed.

Lemma processable_entries items :
  forallb processable_entry items = true → ∃ kvs, entries items kvs.
Proof.
  induction items as [|item items IH]; simpl.
  - intros _. exists []. constructor.
  - intros [Hi Hr]%andb_true_iff.
    destruct (processable_entry_entry item Hi) as (k & v & He).
    destruct (IH Hr) as [kvs Hkvs].
    exists ((k, v) :: kvs). by constructor.
Qed.

Lemma loop_body_unprocessable l item s :
  processable_entry item = false → ∃ e, loop_body l item s = (Throw e, s).
Proof.
  unfold processable_entry, loop_body, bind, lift.
  destruct (Get item "Name") as [n|e]; simpl; [|by eexists].
  destruct (ToPropertyKey n) as [k|e]; simpl; [discriminate | by eexists].
Qed.

Lemma for_of_unprocessable l items s :
  forallb processable_entry items = false →
  ∃ e, (for_of items (loop_body l) s).1 = Throw e.
Proof.
  revert s. induction items as [|item items IH]; intros s; simpl;
    [discriminate|].
  intros H. unfold bind.
  destruct (processable_entry item) eqn:Hi; simpl in H.
  - destruct (loop_body l item s) as [[[]|e] s1]; [by apply IH | by eexists].
  - destruct (loop_body_unprocessable l item s Hi) as [e ->]. by eexists.
Qed.

Lemma build_profile_processable getUserResponse s :
  if processable getUserResponse
  then ∃ l s1, build_profile getUserResponse s = (Normal l, s1)
  else ∃ e, (build_profile getUserResponse s).1 = Throw e.
Proof.
  unfold processable.
  destruct (Get getUserResponse "UserAttributes") as [attributes|] eqn:Ha; simpl.
  - assert (∃ u, Get getUserResponse "Username" = Normal u) as [u Hu]
      by (destruct getUserResponse; try discriminate Ha; by eexists).
    destruct (iterate attributes) as [items|] eqn:Hi.
    + destruct (forallb processable_entry items) eqn:Hp.
      * destruct (processable_entries items Hp) as [kvs Hkvs].
        rewrite (build_profile_entries _ _ _ _ _ s Hu Ha Hi Hkvs). by eexists _, _.
      * unfold build_profile, bind, lift, alloc, ret. rewrite Hu, Ha, Hi.
        match goal with
        | |- context [for_of items (loop_body ?l) ?s1] =>
            destruct (for_of_unprocessable l items s1 Hp) as [e He];
            destruct (for_of items (loop_body l) s1) as [[[]|e'] s2]
        end; simpl in *; [discriminate | by eexists].
    + unfold build_profile, bind, lift, alloc, ret. rewrite Hu, Ha, Hi.
      by eexists.
  - unfold build_profile, bind, lift.
    destruct getUserResponse; try discriminate Ha; by eexists.
Qed.

(** X8.  When the promise fulfils, the first invocation of the callback is
    a success call exactly when the response is processable: its
    [UserAttributes] can be iterated and every entry has a [Name] that can
    be read and converted to a property key.  Otherwise the only
    invocation is an error call with a null profile. *)
Theorem userProfile_success_criterion token done s getUserResponse :
  send (cognitoClient (this s)) (Command token) = Fulfilled getUserResponse →
  if processable getUserResponse
  then ∃ l h rest,
         calls (final (userProfile send token done s))
         = calls s ++ Call None (Some l) h :: rest
  else ∃ e h,
         calls (final (userProfile send token done s))
         = calls s ++ [Call (Some e) None h].
Proof.
  intros Hs. pose proof (build_profile_processable getUserResponse s) as Hb.
  destruct (processable getUserResponse).
  - destruct Hb as (l & s1 & Hb).
    rewrite (final_fulfilled_built send token done s _ _ _ Hs Hb). simpl.
    pose proof (build_profile_frame getUserResponse s) as (_ & Hc & _).
    rewrite Hb in Hc. simpl in Hc. rewrite Hc. by eexists _, _, _.
  - destruct Hb as [e He].
    destruct (build_profile getUserResponse s) as [c s1] eqn:Hb.
    simpl in He. subst c.
    rewrite (final_fulfilled_failed send token done s _ _ _ Hs Hb).
    by eexists _, _.
Qed.

End UserProfileProperties.

(** ** Responses made of strings *)

Section StringAttributes.

Implicit Types (attributes : list (string * string)) (o : object).

Lemma entries_response attributes :
  entries ((fun nv => attribute nv.1 nv.2) <$> attributes)
    ((fun nv => (nv.1, VStr nv.2)) <$> attributes).
Proof.
  apply Forall2_fmap, Forall_Forall2_diag, Forall_forall.
  intros [n v] _. by exists (VStr n).
Qed.

Lemma stored_cons_proto v attributes :
  stored (("__proto__", v) :: attributes) = stored attributes.
Proof. unfold stored. by rewrite filter_cons_False by (simpl; auto). Qed.

Lemma stored_cons_plain n v attributes :
  n ≠ "__proto__" →
  stored ((n, v) :: attributes) = (n, VStr v) :: stored attributes.
Proof. intros Hn. unfold stored. by rewrite filter_cons_True. Qed.

Lemma stored_app attributes1 attributes2 :
  stored (attributes1 ++ attributes2) = stored attributes1 ++ stored attributes2.
Proof. unfold stored. by rewrite filter_app, fmap_app. Qed.

Lemma stored_names attributes k :
  k ∈ (stored attributes).*1 ↔ k ≠ "__proto__" ∧ k ∈ attributes.*1.
Proof.
  unfold stored. rewrite <- list_fmap_compose. rewrite !list_elem_of_fmap.
  split.
  - intros ([n v] & -> & [Hn Hin]%list_elem_of_filter). simpl in *.
    split; [done|]. by exists (n, v).
  - intros (Hk & [n v] & -> & Hin). exists (n, v). split; [done|].
    by apply list_elem_of_filter.
Qed.

Lemma stored_all attributes :
  "__proto__" ∉ attributes.*1 →
  stored attributes = (fun nv => (nv.1, VStr nv.2)) <$> attributes.
Proof.
  induction attributes as [|[n v] attributes IH]; [done|].
  rewrite fmap_cons, not_elem_of_cons. simpl. intros [Hn Hr].
  rewrite stored_cons_plain by done. by rewrite IH.
Qed.

Lemma length_stored attributes :
  (length (stored attributes) ≤ length attributes)%nat.
Proof. unfold stored. rewrite length_fmap. apply length_filter. Qed.

(** On an object whose prototype is [Object.prototype] and which has no
    own [__proto__], assigning strings stores every pair but those named
    [__proto__] and leaves the prototype alone. *)
Lemma set_all_strings o attributes :
  own o !! "__proto__" = None →
  prototype o = ObjectPrototype →
  set_all o ((fun nv => (nv.1, VStr nv.2)) <$> attributes)
  = Object (insert_all (own o) (stored attributes)) ObjectPrototype.
Proof.
  revert o. induction attributes as [|[n v] attributes IH]; intros o Ho Hp.
  - destruct o. simpl in *. by subst.
  - rewrite fmap_cons. unfold set_all. simpl.
    fold (set_all (set_property o n (VStr v))
            ((fun nv => (nv.1, VStr nv.2)) <$> attributes)).
    destruct (decide (n = "__proto__")) as [->|Hn].
    + rewrite stored_cons_proto.
      assert (set_property o "__proto__" (VStr v) = o) as ->.
      { unfold set_property, reaches_proto_setter. by rewrite Ho, Hp. }
      by apply IH.
    + rewrite stored_cons_plain by done.
      rewrite set_property_plain by done.
      rewrite IH; simpl; [done| |done].
      by rewrite lookup_insert_ne.
Qed.

Lemma last_value_app k (kvs1 kvs2 : list (string * value)) :
  last_value k (kvs1 ++ kvs2) =
    match last_value k kvs2 with
    | Some w => Some w
    | None => last_value k kvs1
    end.
Proof.
  induction kvs1 as [|[k' v] kvs1 IH]; simpl.
  - by destruct (last_value k kvs2).
  - rewrite IH. by destruct (last_value k kvs2).
Qed.

Lemma last_value_stored_last k v attributes1 attributes2 :
  k ≠ "__proto__" → k ∉ attributes2.*1 →
  last_value k (stored (attributes1 ++ (k, v) :: attributes2)) = Some (VStr v).
Proof.
  intros Hk Hlast.
  rewrite stored_app, last_value_app, stored_cons_plain by done. simpl.
  assert (last_value k (stored attributes2) = None) as ->.
  { apply last_value_None. rewrite stored_names. tauto. }
  by rewrite decide_True.
Qed.

End StringAttributes.

Section StringResponses.

Context {Base : Type}.
Variable send : CognitoIdentityProviderClient → GetUserCommand → promise value.
Implicit Types (s : state (Base := Base)) (l : loc) (done : callback)
  (attributes : list (string * string)).

(** The profile handed to the callback for a response made of a username
    and (name, value) pairs, whatever the names. *)
Lemma string_profile_built token done s u attributes :
  send (cognitoClient (this s)) (Command token) = Fulfilled (response u attributes) →
  ∃ l h rest,
    calls (final (userProfile send token done s)) =
      calls s ++ Call None (Some l) h :: rest
    ∧ heap s !! l = None
    ∧ h !! l = Some (Object (insert_all {[ "username" := VStr u ]} (stored attributes))
                       ObjectPrototype).
Proof.
  intros Hs.
  pose proof (build_profile_entries (response u attributes) (VStr u) _ _ _ s
                eq_refl eq_refl eq_refl (entries_response attributes)) as Hb.
  rewrite set_all_strings in Hb by done. simpl in Hb.
  eexists _, _, _. split; [|split].
  - rewrite (final_fulfilled_built send token done _ _ _ _ Hs Hb). reflexivity.
  - apply not_elem_of_dom, is_fresh.
  - simpl. by rewrite lookup_insert_eq.
Qed.

(** X9.  For a response made of a username and (name, value) pairs of
    strings, the profile handed to the callback keeps [Object.prototype]
    and its keys are [username] and the names other than [__proto__]:
    entries named [__proto__] leave no trace. *)
Theorem userProfile_string_keys token done s u attributes :
  send (cognitoClient (this s)) (Command token) = Fulfilled (response u attributes) →
  ∃ l h rest o,
    calls (final (userProfile send token done s)) =
      calls s ++ Call None (Some l) h :: rest
    ∧ h !! l = Some o
    ∧ prototype o = ObjectPrototype
    ∧ ∀ k, k ∈ keys o ↔ k = "username" ∨ (k ≠ "__proto__" ∧ k ∈ attributes.*1).
Proof.
  intros Hs.
  destruct (string_profile_built token done s u attributes Hs)
    as (l & h & rest & Hc & _ & Ho).
  eexists l, h, rest, _. split; [done|]. split; [done|]. split; [done|].
  intros k. unfold keys. simpl.
  rewrite dom_insert_all, dom_singleton_L, elem_of_union, elem_of_singleton.
  by rewrite elem_of_list_to_set, stored_names.
Qed.

(** X10.  For such a response with N pairs the profile has at most N + 1
    keys, and exactly N + 1 when the names are distinct and none is
    [username] or [__proto__]. *)
Theorem userProfile_string_size token done s u attributes :
  send (cognitoClient (this s)) (Command token) = Fulfilled (response u attributes) →
  ∃ l h rest o,
    calls (final (userProfile send token done s)) =
      calls s ++ Call None (Some l) h :: rest
    ∧ h !! l = Some o
    ∧ (size (keys o) ≤ S (length attributes))%nat
    ∧ (NoDup attributes.*1 → "username" ∉ attributes.*1 →
       "__proto__" ∉ attributes.*1 → size (keys o) = S (length attributes)).
Proof.
  intros Hs.
  destruct (string_profile_built token done s u attributes Hs)
    as (l & h & rest & Hc & _ & Ho).
  eexists l, h, rest, _. split; [done|]. split; [done|].
  unfold keys. simpl. rewrite size_dom. split.
  - etrans; [apply size_insert_all_le|]. rewrite map_size_singleton.
    pose proof (length_stored attributes). lia.
  - intros Hnd Hu Hp. rewrite (stored_all _ Hp).
    assert (((fun nv : string * string => (nv.1, VStr nv.2)) <$> attributes).*1
            = attributes.*1) as Hnames
      by (rewrite <- list_fmap_compose; by apply list_fmap_ext).
    rewrite size_insert_all_distinct, map_size_singleton, ?length_fmap;
      rewrite ?Hnames; [done|done|].
    intros k Hk. apply lookup_singleton_ne. by intros <-.
Qed.

(** X11.  Last write wins: for such a response, a name other than
    [__proto__] holds the value of its last entry, and [username] holds the
    response's username unless an entry is named [username]. *)
Theorem userProfile_string_last_wins token done s u attributes :
  send (cognitoClient (this s)) (Command token) = Fulfilled (response u attributes) →
  ∃ l h rest o,
    calls (final (userProfile send token done s)) =
      calls s ++ Call None (Some l) h :: rest
    ∧ h !! l = Some o
    ∧ (∀ k v before after,
         attributes = before ++ (k, v) :: after →
         k ≠ "__proto__" → k ∉ after.*1 →
         own o !! k = Some (VStr v))
    ∧ ("username" ∉ attributes.*1 → own o !! "username" = Some (VStr u)).
Proof.
  intros Hs.
  destruct (string_profile_built token done s u attributes Hs)
    as (l & h & rest & Hc & _ & Ho).
  eexists l, h, rest, _. split; [done|]. split; [done|]. simpl. split.
  - intros k v before after -> Hk Hlast.
    by rewrite lookup_insert_all, last_value_stored_last.
  - intros Hu. rewrite lookup_insert_all.
    assert (last_value "username" (stored attributes) = None) as ->.
    { apply last_value_None. rewrite stored_names. tauto. }
    by rewrite lookup_singleton_eq.
Qed.

(** X12.  On a strategy the constructor built, the callback is driven by
    the promise [send] returns for the client configured with the
    [clientRegion] property of the constructor's argument and the command
    carrying the token: while that promise is pending the callback is not
    invoked; when it rejects, the callback is invoked once, with the reason
    and a null profile; when it fulfils, the callback is invoked, first
    with a profile exactly when the response is processable. *)
Theorem userProfile_on_constructed {Verify : Type}
    (inherited : OAuth2Options.t → Verify → completion Base)
    (new_client : value → completion unit)
    config verify inst token done h cs :
  Strategy inherited new_client config verify = Normal inst →
  ∃ r, Get config "clientRegion" = Normal r
    ∧ (send (Client r) (Command token) = Pending →
       calls (final (userProfile send token done (State inst h cs))) = cs)
    ∧ (∀ e, send (Client r) (Command token) = Rejected e →
         calls (final (userProfile send token done (State inst h cs)))
         = cs ++ [Call (Some e) None h])
    ∧ (∀ getUserResponse,
         send (Client r) (Command token) = Fulfilled getUserResponse →
         ∃ c rest,
           calls (final (userProfile send token done (State inst h cs)))
           = cs ++ c :: rest
           ∧ (is_Some (call_profile c) ↔ processable getUserResponse = true)).
Proof.
  unfold Strategy.
  destruct (destructure config) as [p|] eqn:Hp; simpl; [|discriminate].
  destruct (options_of p) as [options|]; simpl; [|discriminate].
  destruct (inherited options verify) as [base|]; simpl; [|discriminate].
  destruct (new_client (clientRegion p)); simpl; [|discriminate].
  intros [= <-]. exists (clientRegion p).
  set (s := State (Instance base (Client (clientRegion p)) "cognito-oauth2") h cs).
  split; [by destruct (destructure_reads config p Hp) as (_ & _ & _ & _ & _ & ?)|].
  split; [|split].
  - intros Hs. by rewrite (userProfile_pending send token done s Hs).
  - intros e Hs. by rewrite (final_rejected send token done s e Hs).
  - intros r Hs.
    pose proof (build_profile_processable r s) as Hb.
    pose proof (build_profile_frame r s) as (_ & Hc & _).
    destruct (processable r).
    + destruct Hb as (l & s1 & Hb). rewrite Hb in Hc. simpl in Hc.
      rewrite (final_fulfilled_built send token done s _ _ _ Hs Hb). simpl.
      rewrite Hc. eexists _, _. split; [done|]. simpl. split; [done | by eauto].
    + destruct Hb as [e He].
      destruct (build_profile r s) as [c s1] eqn:Hb'. simpl in He. subst c.
      rewrite (final_fulfilled_failed send token done s _ _ _ Hs Hb'). simpl.
      eexists _, []. split; [done|]. simpl.
      split; [by intros [? ?] | discriminate].
Qed.

End StringResponses.

(** ** Witnesses of the further properties *)


(** Witness for X7: the token is refused and the callback throws. *)
Lemma userProfile_rejected_chain_witness :
  let e := ServiceError "NotAuthorizedException" "Invalid Access Token" in
  ∃ c,
    last (calls (final (userProfile (rejects e) (VStr "bad-tok") throwing initial)))
    = Some c
    ∧ throwing (call_err c) (call_profile c) (call_heap c)
      = Throw (TypeError "callback failed").
Proof.
  intros e.
  apply (userProfile_rejected_chain (rejects e) (VStr "bad-tok") throwing initial
           (TypeError "callback failed")).
  reflexivity.
Defined.

(** Witness for X8, on a processable response. *)
Lemma userProfile_success_criterion_witness :
  let getUserResponse := response "alice" [("email", "a@x.com")] in
  ∃ l h rest,
    calls (final (userProfile (fulfils getUserResponse) (VStr "tok-123")
                    returning initial))
    = calls initial ++ Call None (Some l) h :: rest.
Proof.
  intros getUserResponse.
  apply (userProfile_success_criterion (fulfils getUserResponse) (VStr "tok-123")
           returning initial getUserResponse).
  reflexivity.
Defined.

(** Witness for X9: the scenario of the specification. *)
Lemma userProfile_string_keys_witness :
  let attributes := [("email", "a@x.com"); ("email", "a2@x.com")] in
  ∃ l h rest o,
    calls (final (userProfile (fulfils (response "alice" attributes))
                    (VStr "tok-123") returning initial))
    = calls initial ++ Call None (Some l) h :: rest
    ∧ h !! l = Some o
    ∧ prototype o = ObjectPrototype
    ∧ ∀ k, k ∈ keys o ↔ k = "username" ∨ (k ≠ "__proto__" ∧ k ∈ attributes.*1).
Proof.
  intros attributes.
  apply (userProfile_string_keys (fulfils (response "alice" attributes))
           (VStr "tok-123") returning initial "alice" attributes).
  reflexivity.
Defined.

(** Witness for X10: the scenario of the specification. *)
Lemma userProfile_string_size_witness :
  let attributes := [("email", "a@x.com"); ("email", "a2@x.com")] in
  ∃ l h rest o,
    calls (final (userProfile (fulfils (response "alice" attributes))
                    (VStr "tok-123") returning initial))
    = calls initial ++ Call None (Some l) h :: rest
    ∧ h !! l = Some o
    ∧ (size (keys o) ≤ S (length attributes))%nat
    ∧ (NoDup attributes.*1 → "username" ∉ attributes.*1 →
       "__proto__" ∉ attributes.*1 → size (keys o) = S (length attributes)).
Proof.
  intros attributes.
  apply (userProfile_string_size (fulfils (response "alice" attributes))
           (VStr "tok-123") returning initial "alice" attributes).
  reflexivity.
Defined.

(** Witness for X11: the scenario of the specification. *)
Lemma userProfile_string_last_wins_witness :
  let attributes := [("email", "a@x.com"); ("email", "a2@x.com")] in
  ∃ l h rest o,
    calls (final (userProfile (fulfils (response "alice" attributes))
                    (VStr "tok-123") returning initial))
    = calls initial ++ Call None (Some l) h :: rest
    ∧ h !! l = Some o
    ∧ (∀ k v before after,
         attributes = before ++ (k, v) :: after →
         k ≠ "__proto__" → k ∉ after.*1 →
         own o !! k = Some (VStr v))
    ∧ ("username" ∉ attributes.*1 → own o !! "username" = Some (VStr "alice")).
Proof.
  intros attributes.
  apply (userProfile_string_last_wins (fulfils (response "alice" attributes))
           (VStr "tok-123") returning initial "alice" attributes).
  reflexivity.
Defined.

(** Witness for X12: a strategy constructed with a [clientRegion], and a
    token the client refuses. *)
Lemma userProfile_on_constructed_witness :
  let config :=
    VObj [("callbackURL", VStr "https://myapp.com/auth/cognito/callback");
          ("clientDomain", VStr "https://myapp.auth.us-west-2.amazoncognito.com");
          ("clientID", VStr "123-456-789");
          ("clientSecret", VStr "shhh-its-a-secret");
          ("clientRegion", VStr "us-west-2")] in
  let refused := ServiceError "NotAuthorizedException" "Invalid Access Token" in
  let send := rejects refused in
  ∃ r, Get config "clientRegion" = Normal r
    ∧ (send (Client r) (Command (VStr "bad-tok")) = Pending →
       calls (final (userProfile send (VStr "bad-tok") returning initial)) = [])
    ∧ (∀ e, send (Client r) (Command (VStr "bad-tok")) = Rejected e →
         calls (final (userProfile send (VStr "bad-tok") returning initial))
         = [] ++ [Call (Some e) None ∅])
    ∧ (∀ getUserResponse,
         send (Client r) (Command (VStr "bad-tok")) = Fulfilled getUserResponse →
         ∃ c rest,
           calls (final (userProfile send (VStr "bad-tok") returning initial))
           = [] ++ c :: rest
           ∧ (is_Some (call_profile c) ↔ processable getUserResponse = true)).
Proof.
  intros config refused send.
  apply (userProfile_on_constructed send (PassportOAuth2.OAuth2Strategy parsing)
           accepting config PassportOAuth2.VerifyFunction a_strategy
           (VStr "bad-tok") returning ∅ []).
  reflexivity.
Defined.

(** Witness for X13: a callback that returns, on a fulfilled promise. *)
Lemma userProfile_once_when_done_returns_witness :
  ∃ c,
    calls (final (userProfile (fulfils (response "alice" [("email", "a@x.com")]))
                    (VStr "tok-123") returning initial))
    = calls initial ++ [c].
Proof.
  apply (userProfile_once_when_done_returns
           (fulfils (response "alice" [("email", "a@x.com")]))
           (VStr "tok-123") returning initial).
  - intros err profile h. reflexivity.
  - discriminate.
Defined.

(** Witness for X14: the success call of the scenario of the
    specification. *)
Lemma userProfile_profile_final_witness :
  let send := fulfils (response "alice" [("email", "a@x.com"); ("email", "a2@x.com")]) in
  let r := userProfile send (VStr "tok-123") returning initial in
  let c := Call None (Some 1%positive) (heap (final r)) in
  call_heap c = heap (final r).
Proof.
  intros send r c.
  apply (userProfile_profile_final send (VStr "tok-123") returning initial c).
  vm_compute. constructor.
Defined.
